(** * hirzel::Plugin — a shallow embedding of [include/hirzel/plugin.h]

    The class wraps the POSIX dynamic loader ([dlopen], [dlsym], [dlerror],
    [dlclose]; the branch taken when [OS_IS_WINDOWS] is false) and keeps a map
    from symbol names to untyped function pointers.

    Modelling choices, all read off the header:
    - [void*] and [Function] are addresses: [N], with [0] for [nullptr];
    - [const char* _error] is a pointer, not a text: either the address of
      one of the class's own string literals (static storage, named by its
      content), or a raw address handed out by [dlerror] ([0] for
      [nullptr]).  The text behind a raw address belongs to the loader and is
      read from the loader state, which may drop it at a later call;
    - [std::unordered_map<std::string, Function>] is a [gmap string N];
      [operator[]] default-inserts [nullptr] for a missing key, [find] does not;
    - the loader is an explicit collaborator with a state of its own, threaded
      through every call that leaves the class;
    - every call that leaves the class (loader calls and calls through a
      resolved address) is appended, with its result, to an observation log,
      so that "which loader calls were made" can be stated. *)

From Stdlib Require Import NArith List Lia.
From stdpp Require Import base option gmap strings.
Import ListNotations.

(** ** Addresses *)

Definition ptr : Type := N.
Definition nullptr : ptr := 0%N.

(** [!p] for a pointer [p]. *)
Definition is_null (p : ptr) : bool := N.eqb p nullptr.

(** ** The platform loader *)

Record Loader : Type := mkLoader {
  world : Type;
  (** [dlopen(path, RTLD_NOW)]: a handle, or [nullptr]. *)
  dlopen : string -> world -> ptr * world;
  (** [dlsym(handle, name)]: an address, or [nullptr]. *)
  dlsym : ptr -> string -> world -> ptr * world;
  (** [dlerror()]: the address of the pending diagnostic, or [nullptr]. *)
  dlerror : world -> ptr * world;
  (** The text the loader holds at an address [dlerror] handed out, if it
      still holds one there. *)
  read_str : ptr -> world -> option string;
  (** [dlclose(handle)]. *)
  dlclose : ptr -> world -> world
}.

(** Calls that leave the class, with what they returned. *)
Inductive Event : Type :=
  | EvOpen (path : string) (h : ptr)
  | EvSym (h : ptr) (name : string) (a : ptr)
  | EvError (a : ptr)
  | EvClose (h : ptr)
  | EvCall (a : ptr).

(** ** The private members of [Plugin] (plugin.h:49-57) *)

(** A [const char*] as the class stores it: the address of a string literal
    of the class, or a raw address ([Raw nullptr] is the null pointer). *)
Inductive cstr : Type :=
  | Literal (s : string)
  | Raw (a : ptr).

Record Plugin : Type := mkPlugin {
  _lib : ptr;
  _bound : bool;
  _error : cstr;
  _filepath : string;
  _functions : gmap string ptr
}.

(** [Plugin() = default]: the in-class initialisers. *)
Definition Plugin_default : Plugin :=
  {| _lib := nullptr; _bound := false; _error := Raw nullptr;
     _filepath := ""; _functions := ∅ |}.

Definition set_lib (h : ptr) (p : Plugin) : Plugin :=
  {| _lib := h; _bound := _bound p; _error := _error p;
     _filepath := _filepath p; _functions := _functions p |}.

Definition set_bound (b : bool) (p : Plugin) : Plugin :=
  {| _lib := _lib p; _bound := b; _error := _error p;
     _filepath := _filepath p; _functions := _functions p |}.

Definition set_error (e : cstr) (p : Plugin) : Plugin :=
  {| _lib := _lib p; _bound := _bound p; _error := e;
     _filepath := _filepath p; _functions := _functions p |}.

Definition set_filepath (f : string) (p : Plugin) : Plugin :=
  {| _lib := _lib p; _bound := _bound p; _error := _error p;
     _filepath := f; _functions := _functions p |}.

Definition set_functions (fs : gmap string ptr) (p : Plugin) : Plugin :=
  {| _lib := _lib p; _bound := _bound p; _error := _error p;
     _filepath := _filepath p; _functions := fs |}.

(** [std::unordered_map::operator[]]: the mapped value, after inserting a
    value-initialised one ([nullptr]) when the key is missing. *)
Definition subscript (fs : gmap string ptr) (k : string) : ptr * gmap string ptr :=
  match fs !! k with
  | Some v => (v, fs)
  | None => (nullptr, <[k := nullptr]> fs)
  end.

(** The three string literals the class stores into [_error]. *)
Definition err_not_bound : string :=
  "attempted to execute function that is not bound!".
Definition err_already_bound : string :=
  "a library is already bound! overwriting is not allowed.".
Definition err_no_lib : string :=
  "lib has not been bound! cannot continue with binding function!".

(** ** Const observers (plugin.h:116-149) *)

Definition is_lib_bound (p : Plugin) : bool := negb (is_null (_lib p)).

Definition is_func_bound (funcname : string) (p : Plugin) : bool :=
  match _functions p !! funcname with
  | Some _ => true
  | None => false
  end.

Definition bound (p : Plugin) : bool := _bound p.
Definition filepath (p : Plugin) : string := _filepath p.
Definition error (p : Plugin) : cstr := _error p.

Section WithLoader.

Variable L : Loader.

(** The object together with the loader state and the observation log. *)
Record Machine : Type := mkMachine {
  self : Plugin;
  os : world L;
  trace : list Event
}.

Definition fresh (w : world L) : Machine :=
  {| self := Plugin_default; os := w; trace := [] |}.

(** [Plugin::bind_library] (plugin.h:197-227). *)
Definition bind_library (path : string) (m : Machine) : Machine :=
  if negb (is_null (_lib (self m))) then
    {| self := set_error (Literal err_already_bound) (self m);
       os := os m; trace := trace m |}
  else
    let p1 := set_filepath path (self m) in
    let '(h, w1) := dlopen L (_filepath p1) (os m) in
    let p2 := set_lib h p1 in
    let t1 := trace m ++ [EvOpen (_filepath p1) h] in
    if is_null h then
      let '(e, w2) := dlerror L w1 in
      {| self := set_bound false (set_error (Raw e) p2);
         os := w2; trace := t1 ++ [EvError e] |}
    else
      {| self := set_bound true p2; os := w1; trace := t1 |}.

(** [Plugin::bind_function] (plugin.h:229-266). *)
Definition bind_function (funcname : string) (m : Machine) : ptr * Machine :=
  if is_null (_lib (self m)) then
    (nullptr,
     {| self := set_error (Literal err_no_lib) (self m);
        os := os m; trace := trace m |})
  else
    let '(func, w1) := dlsym L (_lib (self m)) funcname (os m) in
    let t1 := trace m ++ [EvSym (_lib (self m)) funcname func] in
    if is_null func then
      let '(e, w2) := dlerror L w1 in
      (nullptr,
       {| self := set_bound false (set_error (Raw e) (self m));
          os := w2; trace := t1 ++ [EvError e] |})
    else
      (func,
       {| self := set_functions (<[funcname := func]> (_functions (self m))) (self m);
          os := w1; trace := t1 |}).

(** [Plugin::get_func] (plugin.h:136-139): [return _functions[funcname]]. *)
Definition get_func (funcname : string) (m : Machine) : ptr * Machine :=
  let '(func, fs) := subscript (_functions (self m)) funcname in
  (func, {| self := set_functions fs (self m); os := os m; trace := trace m |}).

(** A call signature, return type [T] and parameters [Args...]: the two
    types, the value [T()], and what a call through an address does.  The
    callee may use the loader; it is given no access to the [Plugin] object,
    whose members are private. *)
Record Signature : Type := mkSignature {
  sig_ret : Type;
  sig_args : Type;
  sig_default : sig_ret;
  sig_call : ptr -> sig_args -> world L -> sig_ret * world L
}.

(** [Plugin::execute<T, Args...>] (plugin.h:97-111). *)
Definition execute (sg : Signature) (funcname : string) (args : sig_args sg)
    (m : Machine) : sig_ret sg * Machine :=
  let '(func, fs) := subscript (_functions (self m)) funcname in
  let p1 := set_functions fs (self m) in
  if is_null func then
    (sig_default sg,
     {| self := set_error (Literal err_not_bound) p1;
        os := os m; trace := trace m |})
  else
    let '(r, w1) := sig_call sg func args (os m) in
    (r, {| self := p1; os := w1; trace := trace m ++ [EvCall func] |}).

(** The range-for of the constructor (plugin.h:178-181). *)
Fixpoint bind_functions (funcnames : list string) (m : Machine) : Machine :=
  match funcnames with
  | [] => m
  | s :: rest => bind_functions rest (snd (bind_function s m))
  end.

(** [Plugin::Plugin(filepath, funcnames)] (plugin.h:172-183). *)
Definition Plugin_new (path : string) (funcnames : list string)
    (w : world L) : Machine :=
  let m1 := bind_library path (fresh w) in
  if negb (is_null (_lib (self m1))) then bind_functions funcnames m1 else m1.

(** What a caller reads through the pointer [error()] returns, in a given
    loader state: nothing through [nullptr], the literal's own text, or
    whatever the loader still holds at a raw address. *)
Definition error_text (p : Plugin) (w : world L) : option string :=
  match _error p with
  | Literal s => Some s
  | Raw a => if is_null a then None else read_str L a w
  end.

(** [Plugin::~Plugin] (plugin.h:185-195). *)
Definition Plugin_delete (m : Machine) : world L * list Event :=
  if negb (is_null (_lib (self m))) then
    (dlclose L (_lib (self m)) (os m), trace m ++ [EvClose (_lib (self m))])
  else (os m, trace m).

(** ** Sequences of member calls on one object *)

Inductive Op : Type :=
  | OpBindLibrary (path : string)
  | OpBindFunction (funcname : string)
  | OpGetFunc (funcname : string)
  | OpExecute (sg : Signature) (funcname : string) (args : sig_args sg).

Definition step (o : Op) (m : Machine) : Machine :=
  match o with
  | OpBindLibrary path => bind_library path m
  | OpBindFunction funcname => snd (bind_function funcname m)
  | OpGetFunc funcname => snd (get_func funcname m)
  | OpExecute sg funcname args => snd (execute sg funcname args m)
  end.

Fixpoint run (ops : list Op) (m : Machine) : Machine :=
  match ops with
  | [] => m
  | o :: rest => run rest (step o m)
  end.

Definition is_load (o : Op) : bool :=
  match o with
  | OpBindLibrary _ => true
  | _ => false
  end.

End WithLoader.

Arguments self {L} _.
Arguments os {L} _.
Arguments trace {L} _.
Arguments sig_ret {L} _.
Arguments sig_args {L} _.
Arguments sig_default {L} _.
Arguments sig_call {L} _ _ _ _.
Arguments is_load {L} _.
Arguments OpBindLibrary {L} _.
Arguments OpBindFunction {L} _.
Arguments OpGetFunc {L} _.
Arguments OpExecute {L} _ _ _.

(** ** Reading the observation log *)

(** The names handed to [dlsym], in call order. *)
Fixpoint sym_attempts (t : list Event) : list string :=
  match t with
  | [] => []
  | EvSym _ name _ :: rest => name :: sym_attempts rest
  | _ :: rest => sym_attempts rest
  end.

(** The addresses [dlerror] returned each time it was asked right after
    [dlsym] had answered [nullptr], in call order; [failed] tells whether the
    event just before [t] was such an answer. *)
Fixpoint diagnostics (failed : bool) (t : list Event) : list ptr :=
  match t with
  | [] => []
  | EvSym _ _ a :: rest => diagnostics (is_null a) rest
  | EvError e :: rest =>
      if failed then e :: diagnostics false rest else diagnostics false rest
  | _ :: rest => diagnostics false rest
  end.

Definition sym_diagnostics (t : list Event) : list ptr :=
  diagnostics false t.

(** The names handed to [dlsym] after the first one it answered with
    [nullptr]; [[]] when there was no such answer. *)
Fixpoint attempts_after_failure (t : list Event) : list string :=
  match t with
  | [] => []
  | EvSym _ _ a :: rest =>
      if is_null a then sym_attempts rest else attempts_after_failure rest
  | _ :: rest => attempts_after_failure rest
  end.

(** Every non-null address in the map was answered by [dlsym] for that name. *)
Definition cache_sound {L : Loader} (m : Machine L) : Prop :=
  forall (n : string) (a : ptr),
    _functions (self m) !! n = Some a -> a <> nullptr ->
    exists h, In (EvSym h n a) (trace m).

(** The non-null handles [dlopen] returned, in call order. *)
Fixpoint opened_handles (t : list Event) : list ptr :=
  match t with
  | [] => []
  | EvOpen _ h :: rest =>
      if is_null h then opened_handles rest else h :: opened_handles rest
  | _ :: rest => opened_handles rest
  end.

(** The handles given to [dlclose], in call order. *)
Fixpoint closed_handles (t : list Event) : list ptr :=
  match t with
  | [] => []
  | EvClose h :: rest => h :: closed_handles rest
  | _ :: rest => closed_handles rest
  end.

(** The paths given to [dlopen], in call order. *)
Fixpoint open_attempts (t : list Event) : list string :=
  match t with
  | [] => []
  | EvOpen path _ :: rest => path :: open_attempts rest
  | _ :: rest => open_attempts rest
  end.

(** The names [dlsym] answered with [nullptr], in call order. *)
Fixpoint sym_failures (t : list Event) : list string :=
  match t with
  | [] => []
  | EvSym _ name a :: rest =>
      if is_null a then name :: sym_failures rest else sym_failures rest
  | _ :: rest => sym_failures rest
  end.

Definition all_resolved (t : list Event) : bool :=
  match sym_failures t with
  | [] => true
  | _ :: _ => false
  end.

(** The last non-null address [dlsym] answered for [n], if any. *)
Fixpoint resolved_address (n : string) (t : list Event) : option ptr :=
  match t with
  | [] => None
  | EvSym _ name a :: rest =>
      match resolved_address n rest with
      | Some a' => Some a'
      | None => if String.eqb name n && negb (is_null a) then Some a else None
      end
  | _ :: rest => resolved_address n rest
  end.

(** Whether [dlsym] answered a non-null address for [n] at some point. *)
Fixpoint was_resolved (n : string) (t : list Event) : bool :=
  match t with
  | [] => false
  | EvSym _ name a :: rest =>
      (String.eqb name n && negb (is_null a)) || was_resolved n rest
  | _ :: rest => was_resolved n rest
  end.

(** ** A small concrete loader

    One image, ["libexample.so"], opened at handle [1], exporting ["add"] at
    [4096] and ["sub"] at [4112]. *)

Module Example.

Definition lib_handle : ptr := 1%N.

(** The one address [dlerror] hands out. *)
Definition diag_buffer : ptr := 28672%N.

(** The loader state: the diagnostic of the last failed call that [dlerror]
    has not handed out yet, and the text currently stored at [diag_buffer].
    As in glibc, every [dlopen] and [dlsym] drops the text handed out
    before. *)
Record ex_world : Type := mkExWorld {
  pending : option string;
  buffer : option string
}.

Definition ex_exports (name : string) : ptr :=
  if String.eqb name "add" then 4096%N
  else if String.eqb name "sub" then 4112%N
  else nullptr.

Definition ex_dlopen (path : string) (w : ex_world) : ptr * ex_world :=
  if String.eqb path "libexample.so" then
    (lib_handle, {| pending := None; buffer := None |})
  else
    (nullptr,
     {| pending := Some (String.append path ": cannot open shared object file");
        buffer := None |}).

Definition ex_dlsym (h : ptr) (name : string) (w : ex_world) : ptr * ex_world :=
  if N.eqb h lib_handle then
    if is_null (ex_exports name) then
      (nullptr,
       {| pending := Some (String.append "undefined symbol: " name);
          buffer := None |})
    else (ex_exports name, {| pending := None; buffer := None |})
  else (nullptr, {| pending := Some "invalid handle"%string; buffer := None |}).

Definition ex_dlerror (w : ex_world) : ptr * ex_world :=
  match pending w with
  | Some msg => (diag_buffer, {| pending := None; buffer := Some msg |})
  | None => (nullptr, {| pending := None; buffer := None |})
  end.

Definition ex_read_str (a : ptr) (w : ex_world) : option string :=
  if N.eqb a diag_buffer then buffer w else None.

Definition ex_dlclose (h : ptr) (w : ex_world) : ex_world := w.

Definition loader : Loader :=
  {| world := ex_world; dlopen := ex_dlopen; dlsym := ex_dlsym;
     dlerror := ex_dlerror; read_str := ex_read_str; dlclose := ex_dlclose |}.

Definition w0 : world loader := {| pending := None; buffer := None |}.

(** Two [int] parameters, [int] result, with the two exported functions
    behind their addresses. *)
Definition int_int_int : Signature loader :=
  {| sig_ret := Z; sig_args := Z * Z; sig_default := 0%Z;
     sig_call := fun a xy w =>
       if N.eqb a 4096 then ((fst xy + snd xy)%Z, w)
       else if N.eqb a 4112 then ((fst xy - snd xy)%Z, w)
       else (0%Z, w) |}.

(** Objects used as concrete inputs below. *)
Definition unloaded : Machine loader := fresh loader w0.
Definition loaded : Machine loader := bind_library loader "libexample.so" unloaded.
Definition load_failed : Machine loader := bind_library loader "missing.so" unloaded.
Definition loaded_add : Machine loader := snd (bind_function loader "add" loaded).
Definition partially_bound : Machine loader :=
  Plugin_new loader "libexample.so" ["add"; "missing_fn"] w0.
Definition early_error : Machine loader := snd (bind_function loader "add" unloaded).

(** A sequence of member calls in which ["missing_fn"] is asked for and not
    found. *)
Definition history : list (Op loader) :=
  [OpBindLibrary "libexample.so"; OpBindFunction "add"; OpBindFunction "missing_fn"].

End Example.

(** * Properties *)

Lemma is_null_true (p : ptr) : is_null p = true <-> p = nullptr.
Proof. unfold is_null. apply N.eqb_eq. Qed.

Lemma is_null_false (p : ptr) : is_null p = false <-> p <> nullptr.
Proof. unfold is_null. apply N.eqb_neq. Qed.

Lemma is_lib_bound_true (p : Plugin) : is_lib_bound p = true <-> is_null (_lib p) = false.
Proof. unfold is_lib_bound. destruct (is_null (_lib p)); simpl; split; congruence. Qed.

Lemma is_lib_bound_false (p : Plugin) : is_lib_bound p = false <-> is_null (_lib p) = true.
Proof. unfold is_lib_bound. destruct (is_null (_lib p)); simpl; split; congruence. Qed.

Lemma is_func_bound_true (n : string) (p : Plugin) :
  is_func_bound n p = true <-> is_Some (_functions p !! n).
Proof.
  unfold is_func_bound. destruct (_functions p !! n) as [a|]; split; intros H.
  - eauto.
  - reflexivity.
  - discriminate.
  - destruct H; discriminate.
Qed.

Lemma subscript_value (fs : gmap string ptr) (k : string) :
  fst (subscript fs k) = default nullptr (fs !! k).
Proof. unfold subscript. destruct (fs !! k); reflexivity. Qed.

Lemma subscript_lookup (fs : gmap string ptr) (k : string) :
  snd (subscript fs k) !! k = Some (fst (subscript fs k)).
Proof.
  unfold subscript. destruct (fs !! k) eqn:E; simpl; [exact E|].
  apply lookup_insert_eq.
Qed.

Lemma subscript_lookup_ne (fs : gmap string ptr) (k n : string) :
  k <> n -> snd (subscript fs k) !! n = fs !! n.
Proof.
  intros Hne. unfold subscript. destruct (fs !! k); simpl; [reflexivity|].
  by apply lookup_insert_ne.
Qed.

(** ** One equation per path through each member function *)

Section Paths.

Variable L : Loader.
Implicit Types (m : Machine L) (path funcname : string).

Lemma bind_library_held path m :
  is_null (_lib (self m)) = false ->
  bind_library L path m =
    {| self := set_error (Literal err_already_bound) (self m);
       os := os m; trace := trace m |}.
Proof. intros H. unfold bind_library. rewrite H. reflexivity. Qed.

Lemma bind_library_opened path m h w1 :
  is_null (_lib (self m)) = true ->
  dlopen L path (os m) = (h, w1) ->
  is_null h = false ->
  bind_library L path m =
    {| self := set_bound true (set_lib h (set_filepath path (self m)));
       os := w1; trace := trace m ++ [EvOpen path h] |}.
Proof.
  intros H Ho Hh. unfold bind_library. rewrite H. simpl.
  rewrite Ho, Hh. reflexivity.
Qed.

Lemma bind_library_refused path m h w1 e w2 :
  is_null (_lib (self m)) = true ->
  dlopen L path (os m) = (h, w1) ->
  is_null h = true ->
  dlerror L w1 = (e, w2) ->
  bind_library L path m =
    {| self := set_bound false (set_error (Raw e) (set_lib h (set_filepath path (self m))));
       os := w2; trace := (trace m ++ [EvOpen path h]) ++ [EvError e] |}.
Proof.
  intros H Ho Hh He. unfold bind_library. rewrite H. simpl.
  rewrite Ho, Hh, He. reflexivity.
Qed.

Lemma bind_function_no_lib funcname m :
  is_null (_lib (self m)) = true ->
  bind_function L funcname m =
    (nullptr,
     {| self := set_error (Literal err_no_lib) (self m);
        os := os m; trace := trace m |}).
Proof. intros H. unfold bind_function. rewrite H. reflexivity. Qed.

Lemma bind_function_found funcname m func w1 :
  is_null (_lib (self m)) = false ->
  dlsym L (_lib (self m)) funcname (os m) = (func, w1) ->
  is_null func = false ->
  bind_function L funcname m =
    (func,
     {| self := set_functions (<[funcname := func]> (_functions (self m))) (self m);
        os := w1; trace := trace m ++ [EvSym (_lib (self m)) funcname func] |}).
Proof.
  intros H Hs Hf. unfold bind_function. rewrite H, Hs, Hf. reflexivity.
Qed.

Lemma bind_function_missing funcname m func w1 e w2 :
  is_null (_lib (self m)) = false ->
  dlsym L (_lib (self m)) funcname (os m) = (func, w1) ->
  is_null func = true ->
  dlerror L w1 = (e, w2) ->
  bind_function L funcname m =
    (nullptr,
     {| self := set_bound false (set_error (Raw e) (self m)); os := w2;
        trace := (trace m ++ [EvSym (_lib (self m)) funcname func]) ++ [EvError e] |}).
Proof.
  intros H Hs Hf He. unfold bind_function. rewrite H, Hs, Hf, He. reflexivity.
Qed.

(** What [execute] leaves in the object does not depend on the signature
    beyond whether the slot is null. *)
Lemma execute_null (sg : Signature L) funcname args m :
  is_null (fst (subscript (_functions (self m)) funcname)) = true ->
  execute L sg funcname args m =
    (sig_default sg,
     {| self := set_error (Literal err_not_bound)
                  (set_functions (snd (subscript (_functions (self m)) funcname)) (self m));
        os := os m; trace := trace m |}).
Proof.
  intros H. unfold execute.
  destruct (subscript (_functions (self m)) funcname) as [func fs]. simpl in *.
  rewrite H. reflexivity.
Qed.

Lemma execute_call (sg : Signature L) funcname args m :
  is_null (fst (subscript (_functions (self m)) funcname)) = false ->
  execute L sg funcname args m =
    (fst (sig_call sg (fst (subscript (_functions (self m)) funcname)) args (os m)),
     {| self := set_functions (snd (subscript (_functions (self m)) funcname)) (self m);
        os := snd (sig_call sg (fst (subscript (_functions (self m)) funcname)) args (os m));
        trace := trace m ++ [EvCall (fst (subscript (_functions (self m)) funcname))] |}).
Proof.
  intros H. unfold execute.
  destruct (subscript (_functions (self m)) funcname) as [func fs]. simpl in *.
  rewrite H. destruct (sig_call sg func args (os m)). reflexivity.
Qed.

Lemma get_func_eq funcname m :
  get_func L funcname m =
    (fst (subscript (_functions (self m)) funcname),
     {| self := set_functions (snd (subscript (_functions (self m)) funcname)) (self m);
        os := os m; trace := trace m |}).
Proof.
  unfold get_func. destruct (subscript (_functions (self m)) funcname). reflexivity.
Qed.

(** *** Frame facts used by several properties *)

(** Only [bind_library] writes [_lib], and only when it is null. *)
Lemma step_keeps_lib (o : Op L) m :
  is_load o = false -> _lib (self (step L o m)) = _lib (self m).
Proof.
  intros Hl. destruct o as [p|n|n|sg n a]; simpl in *; try discriminate.
  - unfold bind_function. destruct (is_null (_lib (self m))); [reflexivity|].
    destruct (dlsym L _ n (os m)) as [f w1]. destruct (is_null f).
    + destruct (dlerror L w1). reflexivity.
    + reflexivity.
  - rewrite get_func_eq. reflexivity.
  - destruct (is_null (fst (subscript (_functions (self m)) n))) eqn:E.
    + rewrite execute_null by exact E. reflexivity.
    + rewrite execute_call by exact E. reflexivity.
Qed.

Lemma bind_library_keeps_held path m :
  is_null (_lib (self m)) = false ->
  _lib (self (bind_library L path m)) = _lib (self m).
Proof. intros H. rewrite bind_library_held by exact H. reflexivity. Qed.

Lemma step_keeps_held (o : Op L) m :
  is_null (_lib (self m)) = false ->
  _lib (self (step L o m)) = _lib (self m).
Proof.
  intros H. destruct (is_load o) eqn:E.
  - destruct o; try discriminate. simpl. by apply bind_library_keeps_held.
  - by apply step_keeps_lib.
Qed.

(** [_bound] is never raised while a library is held. *)
Lemma step_keeps_unbound (o : Op L) m :
  is_null (_lib (self m)) = false ->
  _bound (self m) = false ->
  _bound (self (step L o m)) = false.
Proof.
  intros H Hb. destruct o as [p|n|n|sg n a]; simpl.
  - rewrite bind_library_held by exact H. exact Hb.
  - unfold bind_function. rewrite H.
    destruct (dlsym L _ n (os m)) as [f w1]. destruct (is_null f).
    + destruct (dlerror L w1). reflexivity.
    + exact Hb.
  - rewrite get_func_eq. exact Hb.
  - destruct (is_null (fst (subscript (_functions (self m)) n))) eqn:E.
    + rewrite execute_null by exact E. exact Hb.
    + rewrite execute_call by exact E. exact Hb.
Qed.

(** The log only grows. *)
Lemma step_trace_grows (o : Op L) m :
  exists t, trace (step L o m) = trace m ++ t.
Proof.
  destruct o as [p|n|n|sg n a]; simpl.
  - unfold bind_library. destruct (negb (is_null (_lib (self m)))).
    + exists []. simpl. by rewrite app_nil_r.
    + simpl. destruct (dlopen L p (os m)) as [h w1]. destruct (is_null h).
      * destruct (dlerror L w1) as [e w2]. simpl.
        exists [EvOpen p h; EvError e]. by rewrite <- app_assoc.
      * simpl. eauto.
  - unfold bind_function. destruct (is_null (_lib (self m))).
    + exists []. simpl. by rewrite app_nil_r.
    + destruct (dlsym L _ n (os m)) as [f w1]. destruct (is_null f).
      * destruct (dlerror L w1) as [e w2]. simpl.
        eexists. by rewrite <- app_assoc.
      * simpl. eauto.
  - rewrite get_func_eq. exists []. simpl. by rewrite app_nil_r.
  - destruct (is_null (fst (subscript (_functions (self m)) n))) eqn:E.
    + rewrite execute_null by exact E. exists []. simpl. by rewrite app_nil_r.
    + rewrite execute_call by exact E. simpl. eauto.
Qed.

End Paths.

(** ** Loading *)

Section Loading.

Variable L : Loader.
Implicit Types (m : Machine L) (path funcname : string).

(** C3. On an object that already holds a library, [bind_library] stores
    the already-bound message in [_error] and changes nothing else: the
    handle, the recorded file path, the function map and [_bound] are what
    they were, and the loader is not asked. *)
Theorem bind_library_twice_refused path m :
  is_lib_bound (self m) = true ->
  error (self (bind_library L path m)) = Literal err_already_bound /\
  _lib (self (bind_library L path m)) = _lib (self m) /\
  filepath (self (bind_library L path m)) = filepath (self m) /\
  _functions (self (bind_library L path m)) = _functions (self m) /\
  bound (self (bind_library L path m)) = bound (self m) /\
  os (bind_library L path m) = os m /\
  trace (bind_library L path m) = trace m.
Proof.
  intros H. apply is_lib_bound_true in H.
  rewrite bind_library_held by exact H. simpl. tauto.
Qed.

(** C10. On an object holding no library, [bind_library] stores the path it
    is given in [_filepath] and asks the loader with that stored path; the
    path stays recorded whatever the loader answers, and when the loader
    answers [nullptr] the object still holds no library. *)
Theorem bind_library_records_path path m :
  is_lib_bound (self m) = false ->
  filepath (self (bind_library L path m)) = path /\
  (exists h rest,
     trace (bind_library L path m) =
       trace m ++ EvOpen (filepath (self (bind_library L path m))) h :: rest) /\
  (fst (dlopen L path (os m)) = nullptr ->
     is_lib_bound (self (bind_library L path m)) = false /\
     filepath (self (bind_library L path m)) = path).
Proof.
  intros H. apply is_lib_bound_false in H.
  destruct (dlopen L path (os m)) as [h w1] eqn:Ho.
  destruct (is_null h) eqn:Hh.
  - destruct (dlerror L w1) as [e w2] eqn:He.
    rewrite (bind_library_refused L path m h w1 e w2) by assumption.
    simpl. unfold filepath, is_lib_bound. simpl. split; [reflexivity|]. split.
    + exists h, [EvError e]. by rewrite <- app_assoc.
    + intros _. by rewrite Hh.
  - rewrite (bind_library_opened L path m h w1) by assumption.
    unfold filepath, is_lib_bound. simpl. split; [reflexivity|]. split.
    + exists h, []. reflexivity.
    + intros Hn. apply is_null_false in Hh. contradiction.
Qed.

(** C6, as the code has it. A load that the loader grants makes
    [is_lib_bound] true and [bound] true and does not write [_error]: the
    pointer [error()] returns is the one it returned before the call.  When
    that pointer was null, nothing is read through it afterwards; when it
    was one of the class's own literals, that literal is still read through
    it.  For a raw address obtained from [dlerror] earlier only the pointer
    is kept: what is read through it is up to the loader. *)
Theorem bind_library_success_keeps_error_pointer path m :
  is_lib_bound (self m) = false ->
  fst (dlopen L path (os m)) <> nullptr ->
  is_lib_bound (self (bind_library L path m)) = true /\
  bound (self (bind_library L path m)) = true /\
  error (self (bind_library L path m)) = error (self m) /\
  (self m = Plugin_default -> error (self (bind_library L path m)) = Raw nullptr) /\
  (error (self m) = Raw nullptr ->
     error_text L (self (bind_library L path m)) (os (bind_library L path m)) = None) /\
  (forall s, error (self m) = Literal s ->
     error_text L (self (bind_library L path m)) (os (bind_library L path m)) = Some s).
Proof.
  intros H Hok. apply is_lib_bound_false in H.
  destruct (dlopen L path (os m)) as [h w1] eqn:Ho. simpl in Hok.
  apply is_null_false in Hok.
  rewrite (bind_library_opened L path m h w1) by assumption.
  unfold is_lib_bound, bound, error, error_text. simpl. rewrite Hok.
  repeat split.
  - intros ->. reflexivity.
  - intros ->. reflexivity.
  - intros s ->. reflexivity.
Qed.

End Loading.

(** ** Resolving *)

Section Resolving.

Variable L : Loader.
Implicit Types (m : Machine L) (path funcname : string).

(** C4. On an object holding a library, when the loader does not find the
    name, [bind_function] returns [nullptr], clears [_bound] and leaves the
    function map untouched: a name that was not in it is still not in it,
    and every name that was in it is still in it. *)
Theorem bind_function_missing_symbol funcname m :
  is_lib_bound (self m) = true ->
  fst (dlsym L (_lib (self m)) funcname (os m)) = nullptr ->
  fst (bind_function L funcname m) = nullptr /\
  bound (self (snd (bind_function L funcname m))) = false /\
  _functions (self (snd (bind_function L funcname m))) = _functions (self m) /\
  (is_func_bound funcname (self m) = false ->
     is_func_bound funcname (self (snd (bind_function L funcname m))) = false) /\
  (forall n, is_func_bound n (self m) = true ->
     is_func_bound n (self (snd (bind_function L funcname m))) = true) /\
  is_lib_bound (self (snd (bind_function L funcname m))) = true.
Proof.
  intros H Hs. pose proof H as Hlib. apply is_lib_bound_true in H.
  destruct (dlsym L (_lib (self m)) funcname (os m)) as [f w1] eqn:Hd.
  simpl in Hs. apply is_null_true in Hs.
  destruct (dlerror L w1) as [e w2] eqn:He.
  rewrite (bind_function_missing L funcname m f w1 e w2) by assumption.
  unfold bound, is_func_bound, is_lib_bound in *. simpl. tauto.
Qed.

(** C7. On an object holding a library, when the loader finds the name at a
    non-null address [a], [bind_function] returns [a] and the name is in
    the map; when the loader gives the same address the second time, the
    second [bind_function] returns [a] again, leaves the object exactly as
    the first call left it ([_error] included, which neither call writes),
    and the map still has [a] under the name. *)
Theorem bind_function_idempotent funcname (a : ptr) m :
  is_lib_bound (self m) = true ->
  a <> nullptr ->
  fst (dlsym L (_lib (self m)) funcname (os m)) = a ->
  fst (dlsym L (_lib (self m)) funcname
         (snd (dlsym L (_lib (self m)) funcname (os m)))) = a ->
  fst (bind_function L funcname m) = a /\
  is_func_bound funcname (self (snd (bind_function L funcname m))) = true /\
  error (self (snd (bind_function L funcname m))) = error (self m) /\
  fst (bind_function L funcname (snd (bind_function L funcname m))) = a /\
  self (snd (bind_function L funcname (snd (bind_function L funcname m)))) =
    self (snd (bind_function L funcname m)) /\
  _functions (self (snd (bind_function L funcname (snd (bind_function L funcname m)))))
    !! funcname = Some a.
Proof.
  intros H Ha H1 H2. apply is_lib_bound_true in H. apply is_null_false in Ha.
  destruct (dlsym L (_lib (self m)) funcname (os m)) as [f w1] eqn:Hd1.
  simpl in H1, H2. subst f.
  rewrite (bind_function_found L funcname m a w1) by assumption.
  simpl.
  destruct (dlsym L (_lib (self m)) funcname w1) as [f w2] eqn:Hd2.
  simpl in H2. subst f.
  rewrite (bind_function_found L funcname _ a w2) by assumption.
  unfold is_func_bound, error. simpl.
  rewrite lookup_insert_eq, insert_insert_eq.
  repeat split; try reflexivity. apply lookup_insert_eq.
Qed.

End Resolving.

(** ** Invoking *)

Section Invoking.

Variable L : Loader.
Implicit Types (m : Machine L) (path funcname : string).

Lemma subscript_nonnull (fs : gmap string ptr) (k n : string) (a : ptr) :
  snd (subscript fs k) !! n = Some a -> a <> nullptr -> fs !! n = Some a.
Proof.
  intros Hl Ha. destruct (decide (k = n)) as [->|Hne].
  - rewrite subscript_lookup, subscript_value in Hl.
    destruct (fs !! n) as [v|]; simpl in Hl; [exact Hl|]. congruence.
  - by rewrite subscript_lookup_ne in Hl.
Qed.

Lemma step_functions (o : Op L) m (n : string) (a : ptr) :
  _functions (self (step L o m)) !! n = Some a -> a <> nullptr ->
  _functions (self m) !! n = Some a \/
  exists h, In (EvSym h n a) (trace (step L o m)).
Proof.
  destruct o as [p|k|k|sg k args]; simpl.
  - unfold bind_library. destruct (negb (is_null (_lib (self m)))); simpl; [tauto|].
    destruct (dlopen L p (os m)) as [h w1]. destruct (is_null h).
    + destruct (dlerror L w1). simpl. tauto.
    + simpl. tauto.
  - unfold bind_function. destruct (is_null (_lib (self m))); simpl; [tauto|].
    destruct (dlsym L _ k (os m)) as [f w1]. destruct (is_null f).
    + destruct (dlerror L w1). simpl. tauto.
    + simpl. intros Hl Ha. destruct (decide (k = n)) as [->|Hne].
      * rewrite lookup_insert_eq in Hl. injection Hl as ->.
        right. eexists. apply in_or_app. right. left. reflexivity.
      * rewrite lookup_insert_ne in Hl by exact Hne. by left.
  - rewrite get_func_eq. simpl. intros Hl Ha. left.
    by apply subscript_nonnull with k.
  - intros Hl Ha. left. apply subscript_nonnull with k; [|exact Ha].
    destruct (is_null (fst (subscript (_functions (self m)) k))) eqn:E.
    + rewrite execute_null in Hl by exact E. exact Hl.
    + rewrite execute_call in Hl by exact E. exact Hl.
Qed.

Lemma step_cache_sound (o : Op L) m : cache_sound m -> cache_sound (step L o m).
Proof.
  intros Hm n a Hl Ha.
  destruct (step_functions o m n a Hl Ha) as [Hold|Hnew]; [|exact Hnew].
  destruct (Hm n a Hold Ha) as [h Hin].
  destruct (step_trace_grows L o m) as [t ->].
  exists h. apply in_or_app. by left.
Qed.

Lemma run_cache_sound (ops : list (Op L)) m : cache_sound m -> cache_sound (run L ops m).
Proof.
  revert m. induction ops as [|o ops IH]; intros m Hm; simpl; [exact Hm|].
  apply IH. by apply step_cache_sound.
Qed.

Lemma fresh_cache_sound (w : world L) : cache_sound (fresh L w).
Proof. intros n a Hl _. simpl in Hl. by rewrite lookup_empty in Hl. Qed.

(** The constructor with arguments is a sequence of member calls on a
    default-constructed object. *)
Lemma bind_functions_run (funcnames : list string) m :
  bind_functions L funcnames m = run L (map OpBindFunction funcnames) m.
Proof.
  revert m. induction funcnames as [|s rest IH]; intros m; simpl; [reflexivity|].
  apply IH.
Qed.

Lemma Plugin_new_reachable path (funcnames : list string) (w : world L) :
  exists ops, Plugin_new L path funcnames w = run L ops (fresh L w).
Proof.
  unfold Plugin_new.
  destruct (negb (is_null (_lib (self (bind_library L path (fresh L w)))))).
  - exists (OpBindLibrary path :: map OpBindFunction funcnames).
    simpl. apply bind_functions_run.
  - exists [OpBindLibrary path]. reflexivity.
Qed.

(** C1. Take any object reached from a default-constructed one by member
    calls, and a name for which [dlsym] never answered a non-null address
    on it.  Then [execute], at every signature, returns the signature's
    value-initialised result, stores the not-bound message in [_error], and
    makes no call through an address: the log and the loader state are
    unchanged. *)
Theorem execute_never_resolved (sg : Signature L) funcname (args : sig_args sg)
    (ops : list (Op L)) (w : world L) :
  (forall h a, In (EvSym h funcname a) (trace (run L ops (fresh L w))) -> a = nullptr) ->
  fst (execute L sg funcname args (run L ops (fresh L w))) = sig_default sg /\
  error (self (snd (execute L sg funcname args (run L ops (fresh L w))))) =
    Literal err_not_bound /\
  trace (snd (execute L sg funcname args (run L ops (fresh L w)))) =
    trace (run L ops (fresh L w)) /\
  os (snd (execute L sg funcname args (run L ops (fresh L w)))) =
    os (run L ops (fresh L w)).
Proof.
  intros Hnever. set (m := run L ops (fresh L w)) in *.
  assert (Hs : cache_sound m) by apply run_cache_sound, fresh_cache_sound.
  assert (Hnull : is_null (fst (subscript (_functions (self m)) funcname)) = true).
  { rewrite subscript_value. destruct (_functions (self m) !! funcname) as [a|] eqn:E;
      simpl; [|reflexivity].
    destruct (is_null a) eqn:Ea; [reflexivity|]. apply is_null_false in Ea.
    destruct (Hs funcname a E Ea) as [h Hin]. apply Hnever in Hin. contradiction. }
  rewrite execute_null by exact Hnull. simpl. tauto.
Qed.

(** C8. For a name that is not in the map, both [get_func] and [execute]
    put it there with a null address, so [is_func_bound] is true for it
    afterwards although the loader was never asked about it. *)
Theorem subscript_inserts_null (sg : Signature L) funcname (args : sig_args sg) m :
  _functions (self m) !! funcname = None ->
  is_func_bound funcname (self m) = false /\
  (fst (get_func L funcname m) = nullptr /\
   _functions (self (snd (get_func L funcname m))) !! funcname = Some nullptr /\
   is_func_bound funcname (self (snd (get_func L funcname m))) = true /\
   trace (snd (get_func L funcname m)) = trace m) /\
  (fst (execute L sg funcname args m) = sig_default sg /\
   _functions (self (snd (execute L sg funcname args m))) !! funcname = Some nullptr /\
   is_func_bound funcname (self (snd (execute L sg funcname args m))) = true /\
   trace (snd (execute L sg funcname args m)) = trace m).
Proof.
  intros Hno.
  assert (Hsub : subscript (_functions (self m)) funcname =
                 (nullptr, <[funcname := nullptr]> (_functions (self m)))).
  { unfold subscript. by rewrite Hno. }
  split; [unfold is_func_bound; by rewrite Hno|]. split.
  - rewrite get_func_eq, Hsub. unfold is_func_bound. simpl.
    rewrite lookup_insert_eq. tauto.
  - rewrite execute_null by (rewrite Hsub; reflexivity).
    rewrite Hsub. unfold is_func_bound. simpl.
    rewrite lookup_insert_eq. tauto.
Qed.

End Invoking.

(** ** The life of one object *)

Section Lifecycle.

Variable L : Loader.
Implicit Types (m : Machine L) (path funcname : string).

Lemma run_keeps_unbound (ops : list (Op L)) m :
  is_null (_lib (self m)) = false ->
  _bound (self m) = false ->
  _bound (self (run L ops m)) = false.
Proof.
  revert m. induction ops as [|o ops IH]; intros m Hl Hb; simpl; [exact Hb|].
  apply IH.
  - rewrite step_keeps_held; assumption.
  - apply step_keeps_unbound; assumption.
Qed.

Lemma run_keeps_lib (ops : list (Op L)) m :
  Forall (fun o => is_load o = false) ops ->
  _lib (self (run L ops m)) = _lib (self m).
Proof.
  intros Hops. revert m.
  induction Hops as [|o ops Ho _ IH]; intros m; simpl; [reflexivity|].
  rewrite IH. by apply step_keeps_lib.
Qed.

Lemma bind_library_asks path m :
  is_null (_lib (self m)) = true ->
  is_lib_bound (self (bind_library L path m)) =
    negb (is_null (fst (dlopen L path (os m)))).
Proof.
  intros H. destruct (dlopen L path (os m)) as [h w1] eqn:Ho.
  destruct (is_null h) eqn:Hh.
  - destruct (dlerror L w1) as [e w2] eqn:He.
    rewrite (bind_library_refused L path m h w1 e w2) by assumption.
    unfold is_lib_bound. simpl. by rewrite Hh.
  - rewrite (bind_library_opened L path m h w1) by assumption.
    unfold is_lib_bound. simpl. by rewrite Hh.
Qed.

(** C9. After a [bind_function] that failed on an object holding a library,
    [bound()] is false after every further sequence of member calls; and
    on any object whatever, [bind_function] leaves a false [_bound] false,
    also when it finds the symbol. *)
Theorem bound_stays_false funcname m (ops : list (Op L)) :
  is_lib_bound (self m) = true ->
  fst (dlsym L (_lib (self m)) funcname (os m)) = nullptr ->
  bound (self (snd (bind_function L funcname m))) = false /\
  bound (self (run L ops (snd (bind_function L funcname m)))) = false /\
  (forall n m', bound (self m') = false ->
     bound (self (snd (bind_function L n m'))) = false).
Proof.
  intros H Hs. apply is_lib_bound_true in H.
  destruct (dlsym L (_lib (self m)) funcname (os m)) as [f w1] eqn:Hd.
  simpl in Hs. apply is_null_true in Hs.
  destruct (dlerror L w1) as [e w2] eqn:He.
  rewrite (bind_function_missing L funcname m f w1 e w2) by assumption.
  unfold bound. simpl. split; [reflexivity|]. split.
  - apply run_keeps_unbound; [exact H | reflexivity].
  - intros n m' Hb. unfold bind_function.
    destruct (is_null (_lib (self m'))); [exact Hb|].
    destruct (dlsym L _ n (os m')) as [f' w']. destruct (is_null f').
    + destruct (dlerror L w'). reflexivity.
    + exact Hb.
Qed.

(** C5, as the code has it. After a [bind_library] that failed, the object
    holds no library, and member calls other than [bind_library] keep it
    so; a later [bind_library] asks the loader again and the object holds a
    library afterwards exactly when the loader grants that request. *)
Theorem failed_load_can_be_retried path m :
  is_lib_bound (self (bind_library L path m)) = false ->
  forall ops : list (Op L),
    Forall (fun o => is_load o = false) ops ->
    is_lib_bound (self (run L ops (bind_library L path m))) = false /\
    forall path',
      is_lib_bound (self (bind_library L path' (run L ops (bind_library L path m)))) =
        negb (is_null (fst (dlopen L path'
                              (os (run L ops (bind_library L path m)))))).
Proof.
  intros Hfail ops Hops.
  assert (Hl : _lib (self (run L ops (bind_library L path m))) =
               _lib (self (bind_library L path m))) by by apply run_keeps_lib.
  split.
  - unfold is_lib_bound in *. by rewrite Hl.
  - intros path'. apply bind_library_asks.
    rewrite Hl. by apply is_lib_bound_false.
Qed.

End Lifecycle.

(** ** The constructor with a batch of names *)

Section Batch.

Variable L : Loader.
Implicit Types (m : Machine L) (path funcname : string).

Lemma is_func_bound_insert (n k : string) (a : ptr) (p : Plugin) :
  is_func_bound n p = true ->
  is_func_bound n (set_functions (<[k := a]> (_functions p)) p) = true.
Proof.
  rewrite !is_func_bound_true. simpl. intros H.
  destruct (decide (k = n)) as [->|Hne].
  - rewrite lookup_insert_eq. eauto.
  - by rewrite lookup_insert_ne.
Qed.

Lemma resolved_address_sound (n : string) (t : list Event) (a : ptr) :
  resolved_address n t = Some a ->
  a <> nullptr /\ exists h, In (EvSym h n a) t.
Proof.
  induction t as [|ev t IH]; simpl; [discriminate|].
  destruct ev as [p h|h k f|e|h|f];
    try (intros H; destruct (IH H) as [Ha [h' Hin]]; split; [exact Ha|];
         exists h'; by right).
  destruct (resolved_address n t) as [a'|].
  - intros H. injection H as ->. destruct (IH eq_refl) as [Ha [h' Hin]].
    split; [exact Ha|]. exists h'. by right.
  - destruct (String.eqb k n && negb (is_null f)) eqn:E; [|discriminate].
    intros H. injection H as ->. apply andb_true_iff in E as [Ek Ef].
    apply String.eqb_eq in Ek. subst k. apply negb_true_iff in Ef.
    split; [by apply is_null_false|]. exists h. by left.
Qed.

Lemma resolved_address_complete (n : string) (t : list Event) (h a : ptr) :
  In (EvSym h n a) t -> a <> nullptr -> exists a', resolved_address n t = Some a'.
Proof.
  intros Hin Ha. induction t as [|ev t IH]; [destruct Hin|].
  destruct Hin as [->|Hin].
  - simpl. destruct (resolved_address n t) as [a'|]; [eauto|].
    apply is_null_false in Ha. rewrite String.eqb_refl, Ha. simpl. eauto.
  - destruct (IH Hin) as [a' Hr]. exists a'.
    destruct ev; simpl; rewrite Hr; reflexivity.
Qed.

(** The loop, on an object that holds a library: what it adds to the log
    and what it leaves in the object. *)
Lemma bind_functions_batch (funcnames : list string) m :
  is_null (_lib (self m)) = false ->
  exists t,
    trace (bind_functions L funcnames m) = trace m ++ t /\
    sym_attempts t = funcnames /\
    match last (diagnostics false t) with
    | Some e => _error (self (bind_functions L funcnames m)) = Raw e /\
                _bound (self (bind_functions L funcnames m)) = false
    | None => _error (self (bind_functions L funcnames m)) = _error (self m) /\
              _bound (self (bind_functions L funcnames m)) = _bound (self m)
    end /\
    (forall h n, In (EvSym h n nullptr) t -> diagnostics false t <> []) /\
    (forall n, _functions (self (bind_functions L funcnames m)) !! n =
               match resolved_address n t with
               | Some a => Some a
               | None => _functions (self m) !! n
               end).
Proof.
  revert m. induction funcnames as [|s rest IH]; intros m Hlib.
  - exists []. simpl. rewrite app_nil_r. repeat split; try tauto.
  - simpl bind_functions.
    destruct (dlsym L (_lib (self m)) s (os m)) as [f w1] eqn:Hd.
    destruct (is_null f) eqn:Hf.
    + destruct (dlerror L w1) as [e w2] eqn:He.
      rewrite (bind_function_missing L s m f w1 e w2) by assumption.
      simpl snd. set (m1 := mkMachine L _ _ _).
      destruct (IH m1 Hlib) as (t & Ht & Hn & Hlast & Hdiag & Hmap).
      exists (EvSym (_lib (self m)) s f :: EvError e :: t). split.
      { rewrite Ht. subst m1. simpl. by rewrite <- !app_assoc. }
      split; [simpl; by rewrite Hn|]. split.
      { simpl. rewrite Hf, last_cons.
        destruct (last (diagnostics false t)); [exact Hlast|].
        subst m1. simpl in Hlast. exact Hlast. }
      split; [intros h n _; simpl; by rewrite Hf|].
      intros n. rewrite Hmap. simpl. rewrite Hf, andb_false_r.
      destruct (resolved_address n t); reflexivity.
    + rewrite (bind_function_found L s m f w1) by assumption.
      simpl snd. set (m1 := mkMachine L _ _ _).
      destruct (IH m1 Hlib) as (t & Ht & Hn & Hlast & Hdiag & Hmap).
      exists (EvSym (_lib (self m)) s f :: t). split.
      { rewrite Ht. subst m1. simpl. by rewrite <- app_assoc. }
      split; [simpl; by rewrite Hn|]. split.
      { simpl. rewrite Hf. exact Hlast. }
      split.
      { intros h n [Heq|Hi].
        - injection Heq as _ _ ->. discriminate.
        - simpl. rewrite Hf. by apply Hdiag with h n. }
      intros n. rewrite Hmap. simpl. rewrite Hf, andb_true_r.
      destruct (resolved_address n t); [reflexivity|].
      subst m1. simpl. destruct (decide (s = n)) as [->|Hne].
      * by rewrite String.eqb_refl, lookup_insert_eq.
      * rewrite lookup_insert_ne by exact Hne.
        apply String.eqb_neq in Hne. by rewrite Hne.
Qed.

Lemma bind_library_fresh_trace path (w : world L) :
  is_null (_lib (self (bind_library L path (fresh L w)))) = false ->
  exists h, trace (bind_library L path (fresh L w)) = [EvOpen path h].
Proof.
  unfold bind_library. simpl.
  destruct (dlopen L path w) as [h w1]. destruct (is_null h) eqn:Hh.
  - destruct (dlerror L w1). simpl. congruence.
  - simpl. eauto.
Qed.

(** C2, as the code has it. When the constructor's load succeeds, every
    name of the batch is handed to [dlsym], in order, whether or not an
    earlier one failed.  If some resolution failed, [bound()] is false
    afterwards and [_error] is the address [dlerror] returned for the last
    failed one (the pointer only: its text is the loader's).  The map
    holds, under each name, exactly the last non-null address [dlsym]
    answered for it, and nothing else; so every name [dlsym] answered with a
    non-null address, before or after a failure, is in the map with a
    non-null address that [dlsym] answered for it. *)
Theorem Plugin_new_attempts_whole_batch path (funcnames : list string) (w : world L) :
  is_lib_bound (self (Plugin_new L path funcnames w)) = true ->
  sym_attempts (trace (Plugin_new L path funcnames w)) = funcnames /\
  ((exists h n, In (EvSym h n nullptr) (trace (Plugin_new L path funcnames w))) ->
     bound (self (Plugin_new L path funcnames w)) = false /\
     Raw <$> last (sym_diagnostics (trace (Plugin_new L path funcnames w))) =
       Some (error (self (Plugin_new L path funcnames w)))) /\
  (forall n, _functions (self (Plugin_new L path funcnames w)) !! n =
             resolved_address n (trace (Plugin_new L path funcnames w))) /\
  (forall h n a, In (EvSym h n a) (trace (Plugin_new L path funcnames w)) ->
     a <> nullptr ->
     exists h' a',
       _functions (self (Plugin_new L path funcnames w)) !! n = Some a' /\
       a' <> nullptr /\
       In (EvSym h' n a') (trace (Plugin_new L path funcnames w))).
Proof.
  unfold Plugin_new.
  destruct (is_null (_lib (self (bind_library L path (fresh L w))))) eqn:Hlib; simpl.
  - intros H. apply is_lib_bound_true in H. congruence.
  - intros _.
    destruct (bind_library_fresh_trace path w Hlib) as [h0 Ht0].
    destruct (bind_functions_batch funcnames _ Hlib)
      as (t & Ht & Hn & Hlast & Hdiag & Hmap).
    assert (Hempty : forall n, _functions (self (bind_library L path (fresh L w))) !! n = None).
    { intros n. unfold bind_library, fresh. simpl.
      destruct (dlopen L path w) as [h w1]. destruct (is_null h).
      - destruct (dlerror L w1). simpl. apply lookup_empty.
      - simpl. apply lookup_empty. }
    assert (Hexact : forall n,
              _functions (self (bind_functions L funcnames (bind_library L path (fresh L w)))) !! n =
              resolved_address n t).
    { intros n. rewrite Hmap, Hempty. destruct (resolved_address n t); reflexivity. }
    rewrite Ht, Ht0. simpl. split; [exact Hn|]. split; [|split].
    + intros (h & n & [Heq|Hi]); [discriminate|].
      unfold sym_diagnostics, bound, error. simpl.
      pose proof (Hdiag h n Hi) as Hne.
      destruct (last (diagnostics false t)) as [e|] eqn:El.
      * destruct Hlast as [-> ->]. split; reflexivity.
      * apply last_None in El. contradiction.
    + exact Hexact.
    + intros h n a [Heq|Hi] Ha; [discriminate|].
      destruct (resolved_address_complete n t h a Hi Ha) as [a' Hr].
      destruct (resolved_address_sound n t a' Hr) as [Ha' [h' Hin']].
      exists h', a'. rewrite Hexact. split; [exact Hr|]. split; [exact Ha'|].
      by right.
Qed.

End Batch.

(** ** What the log grows by, operation by operation *)

Section LogReading.

Lemma opened_handles_app (t1 t2 : list Event) :
  opened_handles (t1 ++ t2) = opened_handles t1 ++ opened_handles t2.
Proof.
  induction t1 as [|ev t1 IH]; simpl; [reflexivity|].
  destruct ev as [p h|h n a|e|h|a]; simpl; try exact IH.
  destruct (is_null h); simpl; by rewrite IH.
Qed.

Lemma closed_handles_app (t1 t2 : list Event) :
  closed_handles (t1 ++ t2) = closed_handles t1 ++ closed_handles t2.
Proof.
  induction t1 as [|ev t1 IH]; simpl; [reflexivity|].
  destruct ev; simpl; by rewrite ?IH.
Qed.

Lemma open_attempts_app (t1 t2 : list Event) :
  open_attempts (t1 ++ t2) = open_attempts t1 ++ open_attempts t2.
Proof.
  induction t1 as [|ev t1 IH]; simpl; [reflexivity|].
  destruct ev; simpl; by rewrite ?IH.
Qed.

Lemma was_resolved_app (n : string) (t1 t2 : list Event) :
  was_resolved n (t1 ++ t2) = was_resolved n t1 || was_resolved n t2.
Proof.
  induction t1 as [|ev t1 IH]; simpl; [reflexivity|].
  destruct ev; simpl; rewrite ?IH; try reflexivity.
  by rewrite orb_assoc.
Qed.

Lemma subscript_present (fs : gmap string ptr) (k : string) (v : ptr) :
  fs !! k = Some v -> subscript fs k = (v, fs).
Proof. intros H. unfold subscript. by rewrite H. Qed.

Lemma subscript_default (fs : gmap string ptr) (k n : string) :
  default nullptr (snd (subscript fs k) !! n) = default nullptr (fs !! n).
Proof.
  destruct (decide (k = n)) as [->|Hne].
  - rewrite subscript_lookup, subscript_value. reflexivity.
  - by rewrite subscript_lookup_ne.
Qed.

Lemma set_functions_same (p : Plugin) : set_functions (_functions p) p = p.
Proof. by destruct p. Qed.

End LogReading.

(** ** Invariants of every sequence of member calls *)

Section Invariants.

Variable L : Loader.
Implicit Types (m : Machine L) (path funcname : string).

Lemma run_invariant (P : Machine L -> Prop) :
  (forall o m, P m -> P (step L o m)) ->
  forall ops m, P m -> P (run L ops m).
Proof.
  intros Hstep ops. induction ops as [|o ops IH]; intros m Hm; simpl; [exact Hm|].
  apply IH, Hstep, Hm.
Qed.

(** Splits a goal about [step L o m] into the nine paths through the four
    member functions. *)
Ltac step_paths o m :=
  destruct o as [p|k|k|sg k args]; simpl step;
  [ unfold bind_library;
    destruct (is_null (_lib (self m))) eqn:Hlib; simpl negb; cbv iota;
    [ simpl _filepath;
      destruct (dlopen L p (os m)) as [h w1] eqn:Ho;
      destruct (is_null h) eqn:Hh;
      [ destruct (dlerror L w1) as [e w2] eqn:He | ]
    | ]
  | unfold bind_function;
    destruct (is_null (_lib (self m))) eqn:Hlib;
    [ | destruct (dlsym L (_lib (self m)) k (os m)) as [f w1] eqn:Hd;
        destruct (is_null f) eqn:Hf;
        [ destruct (dlerror L w1) as [e w2] eqn:He | ] ]
  | rewrite get_func_eq
  | destruct (is_null (fst (subscript (_functions (self m)) k))) eqn:Hk;
    [ rewrite execute_null by exact Hk | rewrite execute_call by exact Hk ] ];
  simpl.

Lemma step_handles (o : Op L) m :
  opened_handles (trace m) =
    (if is_null (_lib (self m)) then [] else [_lib (self m)]) /\
  closed_handles (trace m) = [] ->
  opened_handles (trace (step L o m)) =
    (if is_null (_lib (self (step L o m))) then [] else [_lib (self (step L o m))]) /\
  closed_handles (trace (step L o m)) = [].
Proof.
  intros [Ho' Hc]. step_paths o m;
    rewrite ?opened_handles_app, ?closed_handles_app, ?Ho', ?Hc, ?Hlib; simpl;
    rewrite ?Hh, ?Hlib, ?app_nil_r; auto.
Qed.

Lemma step_bound_lib (o : Op L) m :
  (_bound (self m) = true -> is_null (_lib (self m)) = false) ->
  _bound (self (step L o m)) = true -> is_null (_lib (self (step L o m))) = false.
Proof.
  intros Hm. step_paths o m; try exact Hm; try discriminate; try congruence;
    intros Hb; apply Hm in Hb; congruence.
Qed.

Lemma step_resolved (o : Op L) m :
  (forall n, was_resolved n (trace m) =
             negb (is_null (default nullptr (_functions (self m) !! n)))) ->
  forall n, was_resolved n (trace (step L o m)) =
            negb (is_null (default nullptr (_functions (self (step L o m)) !! n))).
Proof.
  intros Hm n. step_paths o m;
    rewrite ?was_resolved_app, ?subscript_default; simpl;
    rewrite ?orb_false_r, ?Hf, ?andb_false_r, ?orb_false_r; try apply Hm.
  rewrite Hm. simpl. destruct (decide (k = n)) as [->|Hne].
  - rewrite String.eqb_refl, lookup_insert_eq. simpl. rewrite Hf. apply orb_true_r.
  - rewrite lookup_insert_ne by exact Hne.
    apply String.eqb_neq in Hne. rewrite Hne. simpl. apply orb_false_r.
Qed.

Lemma step_held_frame (o : Op L) m :
  is_null (_lib (self m)) = false ->
  _lib (self (step L o m)) = _lib (self m) /\
  _filepath (self (step L o m)) = _filepath (self m) /\
  open_attempts (trace (step L o m)) = open_attempts (trace m).
Proof.
  intros H. step_paths o m; try congruence;
    rewrite ?open_attempts_app; simpl; rewrite ?app_nil_r; auto.
Qed.

Lemma step_keeps_func_bound (o : Op L) m (n : string) :
  is_func_bound n (self m) = true -> is_func_bound n (self (step L o m)) = true.
Proof.
  intros H. step_paths o m; try exact H.
  - by apply is_func_bound_insert.
  - apply is_func_bound_true. simpl. apply is_func_bound_true in H.
    destruct H as [v Hv]. destruct (decide (k = n)) as [->|Hne].
    + rewrite subscript_lookup. eauto.
    + rewrite subscript_lookup_ne by exact Hne. eauto.
  - apply is_func_bound_true. simpl. apply is_func_bound_true in H.
    destruct H as [v Hv]. destruct (decide (k = n)) as [->|Hne].
    + rewrite subscript_lookup. eauto.
    + rewrite subscript_lookup_ne by exact Hne. eauto.
  - apply is_func_bound_true. simpl. apply is_func_bound_true in H.
    destruct H as [v Hv]. destruct (decide (k = n)) as [->|Hne].
    + rewrite subscript_lookup. eauto.
    + rewrite subscript_lookup_ne by exact Hne. eauto.
Qed.

End Invariants.

(** ** Further properties of the member functions *)

Section Resolution.

Variable L : Loader.
Implicit Types (m : Machine L) (path funcname : string).

Lemma run_no_lib_fixed (funcnames : list string) (p : Plugin) (w : world L)
    (t : list Event) :
  is_null (_lib p) = true ->
  run L (map OpBindFunction funcnames)
    {| self := set_error (Literal err_no_lib) p; os := w; trace := t |} =
  {| self := set_error (Literal err_no_lib) p; os := w; trace := t |}.
Proof.
  intros H. induction funcnames as [|s rest IH]; simpl; [reflexivity|].
  rewrite bind_function_no_lib by exact H. simpl. exact IH.
Qed.

(** X1. On an object that holds no library, [bind_function] returns
    [nullptr], and however many names are asked for, one after the other,
    the only thing that changes is [_error], which holds the
    lib-not-bound message: the loader is not called, the map gets no
    entry, and the loader state and the log are what they were. *)
Theorem bind_function_without_library funcname m :
  is_lib_bound (self m) = false ->
  fst (bind_function L funcname m) = nullptr /\
  forall funcnames : list string,
    funcnames <> [] ->
    run L (map OpBindFunction funcnames) m =
      {| self := set_error (Literal err_no_lib) (self m); os := os m; trace := trace m |}.
Proof.
  intros H. apply is_lib_bound_false in H. split.
  - rewrite bind_function_no_lib by exact H. reflexivity.
  - intros [|s rest] Hne; [contradiction|]. simpl.
    rewrite bind_function_no_lib by exact H. simpl.
    by apply run_no_lib_fixed.
Qed.

(** X5. Resolve, then invoke: after a [bind_function] that the loader
    answered with a non-null address [a], [execute] of that name calls through
    [a] with the given arguments, returns the callee's result as it is, and
    leaves the object untouched ([_error] included); the call is the only
    thing added to the log. *)
Theorem execute_after_bind_function (sg : Signature L) funcname (args : sig_args sg)
    (a : ptr) m :
  is_lib_bound (self m) = true ->
  fst (dlsym L (_lib (self m)) funcname (os m)) = a ->
  a <> nullptr ->
  fst (execute L sg funcname args (snd (bind_function L funcname m))) =
    fst (sig_call sg a args (os (snd (bind_function L funcname m)))) /\
  self (snd (execute L sg funcname args (snd (bind_function L funcname m)))) =
    self (snd (bind_function L funcname m)) /\
  os (snd (execute L sg funcname args (snd (bind_function L funcname m)))) =
    snd (sig_call sg a args (os (snd (bind_function L funcname m)))) /\
  trace (snd (execute L sg funcname args (snd (bind_function L funcname m)))) =
    trace (snd (bind_function L funcname m)) ++ [EvCall a].
Proof.
  intros H Hd Ha. apply is_lib_bound_true in H. apply is_null_false in Ha.
  destruct (dlsym L (_lib (self m)) funcname (os m)) as [f w1] eqn:Hs.
  simpl in Hd. subst f.
  rewrite (bind_function_found L funcname m a w1) by assumption. simpl snd.
  set (m1 := mkMachine L _ _ _).
  assert (Hsub : subscript (_functions (self m1)) funcname = (a, _functions (self m1))).
  { apply subscript_present. subst m1. simpl. apply lookup_insert_eq. }
  rewrite execute_call by (rewrite Hsub; exact Ha).
  rewrite Hsub. simpl. repeat split; reflexivity.
Qed.

(** X6. Resolve, then look up: after a [bind_function] that the loader
    answered with a non-null address [a], [get_func] of that name returns [a]
    and changes nothing, and what [get_func] returns for every other name is
    what it returned before the [bind_function]. *)
Theorem get_func_after_bind_function funcname (a : ptr) m :
  is_lib_bound (self m) = true ->
  fst (dlsym L (_lib (self m)) funcname (os m)) = a ->
  a <> nullptr ->
  get_func L funcname (snd (bind_function L funcname m)) =
    (a, snd (bind_function L funcname m)) /\
  forall k, k <> funcname ->
    fst (get_func L k (snd (bind_function L funcname m))) = fst (get_func L k m).
Proof.
  intros H Hd Ha. apply is_lib_bound_true in H. apply is_null_false in Ha.
  destruct (dlsym L (_lib (self m)) funcname (os m)) as [f w1] eqn:Hs.
  simpl in Hd. subst f.
  rewrite (bind_function_found L funcname m a w1) by assumption. simpl snd.
  split.
  - rewrite get_func_eq. simpl.
    rewrite (subscript_present _ funcname a) by apply lookup_insert_eq.
    reflexivity.
  - intros k Hk. rewrite !get_func_eq. simpl. rewrite !subscript_value.
    by rewrite lookup_insert_ne.
Qed.

(** X7. On every object reached from a default-constructed one by member
    calls, [get_func] returns a non-null address for exactly the names for
    which [dlsym] answered a non-null address at some point of the object's
    life. *)
Theorem get_func_nonnull_iff_resolved (n : string) (ops : list (Op L)) (w : world L) :
  negb (is_null (fst (get_func L n (run L ops (fresh L w))))) =
    was_resolved n (trace (run L ops (fresh L w))).
Proof.
  rewrite get_func_eq. simpl. rewrite subscript_value. symmetry. revert n.
  apply (run_invariant L
    (fun m => forall n, was_resolved n (trace m) =
                        negb (is_null (default nullptr (_functions (self m) !! n))))).
  - apply step_resolved.
  - intros n. simpl. by rewrite lookup_empty.
Qed.

Lemma run_keeps_func_bound (n : string) (ops : list (Op L)) m :
  is_func_bound n (self m) = true ->
  is_func_bound n (self (run L ops m)) = true.
Proof.
  apply (run_invariant L (fun m => is_func_bound n (self m) = true)).
  intros o m'. apply step_keeps_func_bound.
Qed.

(** X11. Entries are never removed: a name for which [is_func_bound] is true
    keeps it true under every sequence of member calls. *)
Theorem is_func_bound_persists (n : string) (ops : list (Op L)) m :
  is_func_bound n (self m) = true ->
  is_func_bound n (self (run L ops m)) = true.
Proof. apply run_keeps_func_bound. Qed.

(** X12. [get_func] is idempotent: asked twice for the same name, it returns
    the same address the second time and the second call changes nothing. *)
Theorem get_func_idempotent funcname m :
  get_func L funcname (snd (get_func L funcname m)) =
    (fst (get_func L funcname m), snd (get_func L funcname m)).
Proof.
  rewrite (get_func_eq L funcname m). simpl.
  rewrite get_func_eq. simpl.
  rewrite (subscript_present _ funcname (fst (subscript (_functions (self m)) funcname)))
    by apply subscript_lookup.
  reflexivity.
Qed.

End Resolution.

(** ** Further properties of construction, loading and destruction *)

Section Construction.

Variable L : Loader.
Implicit Types (m : Machine L) (path funcname : string).

(** X2. When the loader refuses the constructor's path, the constructor asks
    for none of the names: the object holds no library, [_bound] is false,
    the map is empty, [_filepath] is the path, [_error] is what [dlerror]
    returned for the failed load, and the loader was called exactly twice
    ([dlopen], then [dlerror]). *)
Theorem Plugin_new_load_failure path (funcnames : list string) (w : world L) :
  fst (dlopen L path w) = nullptr ->
  Plugin_new L path funcnames w =
    {| self := {| _lib := nullptr; _bound := false;
                  _error := Raw (fst (dlerror L (snd (dlopen L path w))));
                  _filepath := path; _functions := ∅ |};
       os := snd (dlerror L (snd (dlopen L path w)));
       trace := [EvOpen path nullptr;
                 EvError (fst (dlerror L (snd (dlopen L path w))))] |}.
Proof.
  intros H. unfold Plugin_new, bind_library, fresh. simpl.
  destruct (dlopen L path w) as [h w1]. simpl in H. subst h. simpl.
  destruct (dlerror L w1) as [e w2]. reflexivity.
Qed.

Lemma all_resolved_found (h : ptr) (s : string) (f : ptr) (t : list Event) :
  is_null f = false -> all_resolved (EvSym h s f :: t) = all_resolved t.
Proof. intros Hf. unfold all_resolved. simpl. by rewrite Hf. Qed.

Lemma all_resolved_missing (h : ptr) (s : string) (f : ptr) (t : list Event) :
  is_null f = true -> all_resolved (EvSym h s f :: t) = false.
Proof. intros Hf. unfold all_resolved. simpl. by rewrite Hf. Qed.

(** The loop on an object that holds a library: [_bound] survives exactly
    when no name failed, and then [_error] is not written. *)
Lemma bind_functions_bound (funcnames : list string) m :
  is_null (_lib (self m)) = false ->
  exists t,
    trace (bind_functions L funcnames m) = trace m ++ t /\
    _lib (self (bind_functions L funcnames m)) = _lib (self m) /\
    _bound (self (bind_functions L funcnames m)) = _bound (self m) && all_resolved t /\
    (all_resolved t = true ->
       _error (self (bind_functions L funcnames m)) = _error (self m) /\
       forall n, In n funcnames ->
         is_func_bound n (self (bind_functions L funcnames m)) = true).
Proof.
  revert m. induction funcnames as [|s rest IH]; intros m Hlib.
  - exists []. simpl. rewrite app_nil_r, andb_true_r. repeat split. tauto.
  - simpl bind_functions.
    destruct (dlsym L (_lib (self m)) s (os m)) as [f w1] eqn:Hd.
    destruct (is_null f) eqn:Hf.
    + destruct (dlerror L w1) as [e w2] eqn:He.
      rewrite (bind_function_missing L s m f w1 e w2) by assumption.
      simpl snd. set (m1 := mkMachine L _ _ _).
      destruct (IH m1 Hlib) as (t & Ht & Hl & Hb & _).
      exists (EvSym (_lib (self m)) s f :: EvError e :: t).
      rewrite all_resolved_missing by exact Hf.
      split; [rewrite Ht; subst m1; simpl; by rewrite <- !app_assoc|].
      split; [exact Hl|]. split; [|discriminate].
      rewrite Hb. subst m1. simpl. by rewrite andb_false_r.
    + rewrite (bind_function_found L s m f w1) by assumption.
      simpl snd. set (m1 := mkMachine L _ _ _).
      destruct (IH m1 Hlib) as (t & Ht & Hl & Hb & He).
      exists (EvSym (_lib (self m)) s f :: t).
      rewrite all_resolved_found by exact Hf.
      split; [rewrite Ht; subst m1; simpl; by rewrite <- app_assoc|].
      split; [exact Hl|]. split; [exact Hb|].
      intros Hall. destruct (He Hall) as [Herr Hin]. split; [exact Herr|].
      intros n [<-|Hn]; [|by apply Hin].
      rewrite bind_functions_run. apply run_keeps_func_bound.
      subst m1. apply is_func_bound_true. simpl. rewrite lookup_insert_eq. eauto.
Qed.

(** X3. After the constructor, [bound()] is true exactly when the library
    was loaded and [dlsym] answered no name of the batch with [nullptr]; and
    when it is true, [_error] is null and every name of the batch is in the
    map. *)
Theorem Plugin_new_bound_iff_all_resolved path (funcnames : list string) (w : world L) :
  bound (self (Plugin_new L path funcnames w)) =
    is_lib_bound (self (Plugin_new L path funcnames w)) &&
    all_resolved (trace (Plugin_new L path funcnames w)) /\
  (bound (self (Plugin_new L path funcnames w)) = true ->
     error (self (Plugin_new L path funcnames w)) = Raw nullptr /\
     forall n, In n funcnames ->
       is_func_bound n (self (Plugin_new L path funcnames w)) = true).
Proof.
  unfold Plugin_new, bound, error, is_lib_bound.
  destruct (is_null (_lib (self (bind_library L path (fresh L w))))) eqn:Hlib; simpl.
  - rewrite Hlib. simpl.
    assert (Hb : _bound (self (bind_library L path (fresh L w))) = false).
    { destruct (_bound (self (bind_library L path (fresh L w)))) eqn:Hb; [|reflexivity].
      revert Hb Hlib. unfold bind_library, fresh. simpl.
      destruct (dlopen L path w) as [h w1]. destruct (is_null h) eqn:Hh.
      - destruct (dlerror L w1). simpl. discriminate.
      - simpl. congruence. }
    rewrite Hb. split; [reflexivity | discriminate].
  - destruct (bind_functions_bound funcnames _ Hlib) as (t & Ht & Hl & Hb & He).
    rewrite Ht, Hl, Hlib, Hb. simpl.
    assert (H0 : trace (bind_library L path (fresh L w)) = [EvOpen path (_lib (self (bind_library L path (fresh L w))))] /\
                 _bound (self (bind_library L path (fresh L w))) = true /\
                 _error (self (bind_library L path (fresh L w))) = Raw nullptr).
    { revert Hlib. unfold bind_library, fresh. simpl.
      destruct (dlopen L path w) as [h w1]. destruct (is_null h) eqn:Hh.
      - destruct (dlerror L w1). simpl. congruence.
      - simpl. tauto. }
    destruct H0 as (Ht0 & Hb0 & He0). rewrite Ht0, Hb0. simpl.
    unfold all_resolved at 1. simpl. fold (all_resolved t).
    split; [reflexivity|].
    intros Hall. destruct (He Hall) as [Herr Hin].
    split; [by rewrite Herr | exact Hin].
Qed.

(** X4. Over the whole life of an object — default construction, any
    sequence of member calls, destruction — [dlclose] is never called before
    the destructor, and the destructor calls it exactly on the handles
    [dlopen] returned non-null, which is one handle when the object holds a
    library and none otherwise. *)
Theorem Plugin_delete_closes_what_was_opened (ops : list (Op L)) (w : world L) :
  closed_handles (trace (run L ops (fresh L w))) = [] /\
  closed_handles (snd (Plugin_delete L (run L ops (fresh L w)))) =
    opened_handles (snd (Plugin_delete L (run L ops (fresh L w)))) /\
  closed_handles (snd (Plugin_delete L (run L ops (fresh L w)))) =
    (if is_lib_bound (self (run L ops (fresh L w)))
     then [_lib (self (run L ops (fresh L w)))] else []).
Proof.
  assert (H : opened_handles (trace (run L ops (fresh L w))) =
                (if is_null (_lib (self (run L ops (fresh L w)))) then []
                 else [_lib (self (run L ops (fresh L w)))]) /\
              closed_handles (trace (run L ops (fresh L w))) = []).
  { apply (run_invariant L
      (fun m => opened_handles (trace m) =
                  (if is_null (_lib (self m)) then [] else [_lib (self m)]) /\
                closed_handles (trace m) = [])).
    - apply step_handles.
    - split; reflexivity. }
  destruct H as [Ho Hc]. split; [exact Hc|].
  unfold Plugin_delete, is_lib_bound.
  destruct (is_null (_lib (self (run L ops (fresh L w))))); simpl.
  - rewrite Ho, Hc. split; reflexivity.
  - rewrite closed_handles_app, opened_handles_app, Ho, Hc. simpl.
    split; reflexivity.
Qed.

(** X8. A held library is permanent: once [is_lib_bound] is true, no sequence
    of member calls changes the handle or the recorded file path, and none
    calls [dlopen] again. *)
Theorem held_library_is_permanent (ops : list (Op L)) m :
  is_lib_bound (self m) = true ->
  _lib (self (run L ops m)) = _lib (self m) /\
  filepath (self (run L ops m)) = filepath (self m) /\
  open_attempts (trace (run L ops m)) = open_attempts (trace m).
Proof.
  intros H. apply is_lib_bound_true in H. unfold filepath.
  assert (Hinv : is_null (_lib (self (run L ops m))) = false /\
                 _lib (self (run L ops m)) = _lib (self m) /\
                 _filepath (self (run L ops m)) = _filepath (self m) /\
                 open_attempts (trace (run L ops m)) = open_attempts (trace m)).
  { apply (run_invariant L
      (fun m' => is_null (_lib (self m')) = false /\
                 _lib (self m') = _lib (self m) /\
                 _filepath (self m') = _filepath (self m) /\
                 open_attempts (trace m') = open_attempts (trace m))).
    - intros o m' (Hn & Hl & Hf & Ht).
      destruct (step_held_frame L o m' Hn) as (Hl' & Hf' & Ht').
      rewrite Hl', Hf', Ht'. tauto.
    - tauto. }
  tauto.
Qed.

Lemma run_bound_lib (ops : list (Op L)) (w : world L) :
  _bound (self (run L ops (fresh L w))) = true ->
  is_null (_lib (self (run L ops (fresh L w)))) = false.
Proof.
  apply (run_invariant L
    (fun m => _bound (self m) = true -> is_null (_lib (self m)) = false)).
  - apply step_bound_lib.
  - simpl. discriminate.
Qed.

(** X9. On every object reached from a default-constructed one by member
    calls, [bound()] true implies [is_lib_bound()] true. *)
Theorem bound_implies_lib_bound (ops : list (Op L)) (w : world L) :
  bound (self (run L ops (fresh L w))) = true ->
  is_lib_bound (self (run L ops (fresh L w))) = true.
Proof.
  intros H. apply is_lib_bound_true. by apply run_bound_lib.
Qed.

(** X10. On every object reached from a default-constructed one by member
    calls and holding no library, a [bind_library] that the loader refuses
    changes two members only: [_filepath] becomes the path and [_error]
    becomes what [dlerror] returned; the handle stays null, [_bound] stays
    false and the map is what it was. *)
Theorem failed_load_changes_only_path_and_error path (ops : list (Op L)) (w : world L) :
  is_lib_bound (self (run L ops (fresh L w))) = false ->
  fst (dlopen L path (os (run L ops (fresh L w)))) = nullptr ->
  self (bind_library L path (run L ops (fresh L w))) =
    set_error (Raw (fst (dlerror L (snd (dlopen L path (os (run L ops (fresh L w))))))))
      (set_filepath path (self (run L ops (fresh L w)))).
Proof.
  intros H Hd. pose proof (run_bound_lib ops w) as Hb.
  set (m := run L ops (fresh L w)) in *.
  apply is_lib_bound_false in H.
  destruct (dlopen L path (os m)) as [h w1] eqn:Ho. simpl in Hd. subst h.
  destruct (dlerror L w1) as [e w2] eqn:He.
  rewrite (bind_library_refused L path m nullptr w1 e w2) by (assumption || reflexivity).
  simpl. rewrite He. simpl. destruct (self m) as [lib b err fp fs]. simpl in *.
  apply is_null_true in H. subst lib.
  destruct b; [specialize (Hb eq_refl); discriminate|]. reflexivity.
Qed.

End Construction.

(** * The properties on the example loader *)

Section Runs.

Import Example.

(** The model runs: a resolved name is called through its address, and the
    destructor closes the held handle once. *)
Example execute_add_runs :
  execute loader int_int_int "add" (3, 4)%Z loaded_add =
    (7%Z, {| self := self loaded_add; os := os loaded_add;
             trace := trace loaded_add ++ [EvCall 4096%N] |}).
Proof. reflexivity. Qed.

Example Plugin_delete_closes :
  snd (Plugin_delete loader loaded_add) = trace loaded_add ++ [EvClose lib_handle] /\
  snd (Plugin_delete loader load_failed) = trace load_failed.
Proof. split; reflexivity. Qed.

Lemma execute_never_resolved_run :
  (forall h a, In (EvSym h "missing_fn" a) (trace (run loader history unloaded)) ->
     a = nullptr) /\
  fst (execute loader int_int_int "missing_fn" (1, 2)%Z (run loader history unloaded)) = 0%Z /\
  error (self (snd (execute loader int_int_int "missing_fn" (1, 2)%Z
                      (run loader history unloaded)))) = Literal err_not_bound.
Proof.
  assert (H : forall h a,
             In (EvSym h "missing_fn" a) (trace (run loader history unloaded)) ->
             a = nullptr).
  { intros h a Hin. vm_compute in Hin.
    destruct Hin as [E|[E|[E|[E|[]]]]]; try discriminate E.
    injection E as _ <-. reflexivity. }
  split; [exact H|].
  destruct (execute_never_resolved loader int_int_int "missing_fn" (1, 2)%Z
              history w0 H) as (Hr & He & _).
  split; [exact Hr | exact He].
Defined.

Lemma Plugin_new_attempts_whole_batch_run :
  is_lib_bound (self partially_bound) = true /\
  sym_attempts (trace partially_bound) = ["add"; "missing_fn"] /\
  bound (self partially_bound) = false /\
  error (self partially_bound) = Raw diag_buffer /\
  _functions (self partially_bound) !! "add" = Some 4096%N /\
  _functions (self partially_bound) !! "missing_fn" = None.
Proof.
  split; [reflexivity|].
  destruct (Plugin_new_attempts_whole_batch loader "libexample.so"
              ["add"; "missing_fn"] w0) as (Hn & Herr & Hmap & _); [reflexivity|].
  split; [exact Hn|].
  destruct Herr as [Hb He].
  { exists lib_handle, "missing_fn"%string. right. right. left. reflexivity. }
  split; [exact Hb|]. split.
  - symmetry. apply (inj Some). exact He.
  - split; [exact (Hmap "add"%string) | exact (Hmap "missing_fn"%string)].
Defined.

Lemma bind_library_twice_refused_run :
  is_lib_bound (self loaded) = true /\
  error (self (bind_library loader "other.so" loaded)) = Literal err_already_bound /\
  _lib (self (bind_library loader "other.so" loaded)) = _lib (self loaded) /\
  filepath (self (bind_library loader "other.so" loaded)) = filepath (self loaded) /\
  _functions (self (bind_library loader "other.so" loaded)) = _functions (self loaded) /\
  bound (self (bind_library loader "other.so" loaded)) = bound (self loaded) /\
  os (bind_library loader "other.so" loaded) = os loaded /\
  trace (bind_library loader "other.so" loaded) = trace loaded.
Proof.
  split; [reflexivity|].
  apply (bind_library_twice_refused loader "other.so" loaded). reflexivity.
Defined.

Lemma bind_function_missing_symbol_run :
  is_lib_bound (self loaded_add) = true /\
  fst (dlsym loader (_lib (self loaded_add)) "missing_fn" (os loaded_add)) = nullptr /\
  bound (self (snd (bind_function loader "missing_fn" loaded_add))) = false /\
  is_func_bound "add" (self (snd (bind_function loader "missing_fn" loaded_add))) = true.
Proof.
  split; [reflexivity|]. split; [reflexivity|].
  destruct (bind_function_missing_symbol loader "missing_fn" loaded_add)
    as (_ & Hb & _ & _ & Hkeep & _); [reflexivity | reflexivity |].
  split; [exact Hb|]. apply Hkeep. reflexivity.
Defined.

Lemma failed_load_can_be_retried_run :
  is_lib_bound (self (bind_library loader "missing.so" unloaded)) = false /\
  is_lib_bound
    (self (bind_library loader "libexample.so"
             (run loader [OpBindFunction "add"; OpGetFunc "add"]
                (bind_library loader "missing.so" unloaded)))) =
    negb (is_null (fst (dlopen loader "libexample.so"
                          (os (run loader [OpBindFunction "add"; OpGetFunc "add"]
                                 (bind_library loader "missing.so" unloaded)))))).
Proof.
  split; [reflexivity|].
  apply (failed_load_can_be_retried loader "missing.so" unloaded).
  - reflexivity.
  - repeat constructor.
Defined.

Lemma bind_library_success_keeps_error_pointer_run :
  is_lib_bound (self early_error) = false /\
  fst (dlopen loader "libexample.so" (os early_error)) <> nullptr /\
  is_lib_bound (self (bind_library loader "libexample.so" early_error)) = true /\
  error (self (bind_library loader "libexample.so" early_error)) =
    error (self early_error) /\
  error_text loader (self (bind_library loader "libexample.so" early_error))
    (os (bind_library loader "libexample.so" early_error)) = Some err_no_lib.
Proof.
  assert (Hok : fst (dlopen loader "libexample.so" (os early_error)) <> nullptr)
    by (vm_compute; discriminate).
  split; [reflexivity|]. split; [exact Hok|].
  destruct (bind_library_success_keeps_error_pointer loader "libexample.so" early_error)
    as (Hl & _ & He & _ & _ & Hlit); [reflexivity | exact Hok |].
  split; [exact Hl|]. split; [exact He|]. apply Hlit. reflexivity.
Defined.

(** Why only the pointer is promised: on this loader the diagnostic of a
    failed load is readable right after it, and gone after the next
    [dlopen], although [error()] still returns its address. *)
Example stale_diagnostic_after_load :
  error_text loader (self load_failed) (os load_failed) =
    Some "missing.so: cannot open shared object file"%string /\
  error (self (bind_library loader "libexample.so" load_failed)) = Raw diag_buffer /\
  error_text loader (self (bind_library loader "libexample.so" load_failed))
    (os (bind_library loader "libexample.so" load_failed)) = None.
Proof. repeat split. Qed.

(** The same within a batch: the diagnostic of a failed name is readable
    when that name is the last of the batch, and gone when a later name of
    the batch went to [dlsym] after it. *)
Example stale_diagnostic_in_batch :
  error_text loader (self (Plugin_new loader "libexample.so" ["add"; "missing_fn"] w0))
    (os (Plugin_new loader "libexample.so" ["add"; "missing_fn"] w0)) =
    Some "undefined symbol: missing_fn"%string /\
  error (self (Plugin_new loader "libexample.so" ["missing_fn"; "add"] w0)) =
    Raw diag_buffer /\
  error_text loader (self (Plugin_new loader "libexample.so" ["missing_fn"; "add"] w0))
    (os (Plugin_new loader "libexample.so" ["missing_fn"; "add"] w0)) = None.
Proof. repeat split. Qed.

Lemma bind_function_idempotent_run :
  is_lib_bound (self loaded) = true /\
  fst (bind_function loader "add" loaded) = 4096%N /\
  fst (bind_function loader "add" (snd (bind_function loader "add" loaded))) = 4096%N /\
  self (snd (bind_function loader "add" (snd (bind_function loader "add" loaded)))) =
    self (snd (bind_function loader "add" loaded)).
Proof.
  split; [reflexivity|].
  destruct (bind_function_idempotent loader "add" 4096%N loaded)
    as (H1 & _ & _ & H2 & H3 & _);
    [reflexivity | vm_compute; discriminate | reflexivity | reflexivity |].
  split; [exact H1|]. split; [exact H2 | exact H3].
Defined.

Lemma subscript_inserts_null_run :
  _functions (self loaded) !! "sub" = None /\
  is_func_bound "sub" (self (snd (get_func loader "sub" loaded))) = true /\
  is_func_bound "sub" (self (snd (execute loader int_int_int "sub" (5, 3)%Z loaded))) = true.
Proof.
  split; [reflexivity|].
  destruct (subscript_inserts_null loader int_int_int "sub" (5, 3)%Z loaded)
    as (_ & (_ & _ & Hg & _) & (_ & _ & He & _)); [reflexivity|].
  split; [exact Hg | exact He].
Defined.

Lemma bound_stays_false_run :
  is_lib_bound (self loaded) = true /\
  fst (dlsym loader (_lib (self loaded)) "missing_fn" (os loaded)) = nullptr /\
  bound (self (run loader
                 [OpBindFunction "add"; OpBindLibrary "libexample.so";
                  OpExecute int_int_int "add" (1, 2)%Z]
                 (snd (bind_function loader "missing_fn" loaded)))) = false.
Proof.
  split; [reflexivity|]. split; [reflexivity|].
  destruct (bound_stays_false loader "missing_fn" loaded
              [OpBindFunction "add"; OpBindLibrary "libexample.so";
               OpExecute int_int_int "add" (1, 2)%Z])
    as (_ & Hrun & _); [reflexivity | reflexivity |].
  exact Hrun.
Defined.

Lemma bind_library_records_path_run :
  is_lib_bound (self unloaded) = false /\
  filepath (self (bind_library loader "missing.so" unloaded)) = "missing.so" /\
  is_lib_bound (self (bind_library loader "missing.so" unloaded)) = false.
Proof.
  split; [reflexivity|].
  destruct (bind_library_records_path loader "missing.so" unloaded)
    as (Hp & _ & Hf); [reflexivity|].
  split; [exact Hp|]. apply Hf. reflexivity.
Defined.

(** C2 does not hold as stated: with a failing name first in the batch, the
    constructor still hands the names after it to [dlsym], and what is read
    through [error()] at the end is the diagnostic of the last failure, not
    of the first. *)
Lemma Plugin_new_not_fail_fast :
  sym_failures
    (trace (Plugin_new loader "libexample.so" ["missing_fn"; "add"; "also_missing"] w0))
    = ["missing_fn"; "also_missing"] /\
  attempts_after_failure
    (trace (Plugin_new loader "libexample.so" ["missing_fn"; "add"; "also_missing"] w0))
    = ["add"; "also_missing"] /\
  error_text loader
    (self (Plugin_new loader "libexample.so" ["missing_fn"; "add"; "also_missing"] w0))
    (os (Plugin_new loader "libexample.so" ["missing_fn"; "add"; "also_missing"] w0))
    = Some "undefined symbol: also_missing"%string.
Proof. repeat split. Qed.

(** C5 does not hold as stated: an object whose load failed holds a library
    after a second [bind_library] with a path the loader accepts. *)
Lemma load_failed_then_loaded :
  is_lib_bound (self load_failed) = false /\
  is_lib_bound (self (bind_library loader "libexample.so" load_failed)) = true /\
  bound (self (bind_library loader "libexample.so" load_failed)) = true.
Proof. repeat split. Qed.

(** C6 does not hold as stated: a [bind_function] that failed before the
    load leaves its message in [_error], and the successful load does not
    clear it. *)
Lemma load_does_not_clear_error :
  fst (bind_function loader "add" unloaded) = nullptr /\
  is_lib_bound (self (bind_library loader "libexample.so" early_error)) = true /\
  error (self (bind_library loader "libexample.so" early_error)) = Literal err_no_lib /\
  error (self (bind_library loader "libexample.so" early_error)) <> Raw nullptr /\
  error_text loader (self (bind_library loader "libexample.so" early_error))
    (os (bind_library loader "libexample.so" early_error)) = Some err_no_lib.
Proof. repeat split. discriminate. Qed.

End Runs.

(** * The further properties on the example loader *)

Section MoreRuns.

Import Example.

Lemma bind_function_without_library_run :
  is_lib_bound (self unloaded) = false /\
  fst (bind_function loader "add" unloaded) = nullptr /\
  run loader (map OpBindFunction ["add"; "sub"]) unloaded =
    {| self := set_error (Literal err_no_lib) (self unloaded);
       os := os unloaded; trace := trace unloaded |}.
Proof.
  split; [reflexivity|].
  destruct (bind_function_without_library loader "add" unloaded) as [Hr Hall];
    [reflexivity|].
  split; [exact Hr|]. apply Hall. discriminate.
Defined.

Lemma Plugin_new_load_failure_run :
  fst (dlopen loader "missing.so" w0) = nullptr /\
  sym_attempts (trace (Plugin_new loader "missing.so" ["add"] w0)) = [] /\
  error_text loader (self (Plugin_new loader "missing.so" ["add"] w0))
    (os (Plugin_new loader "missing.so" ["add"] w0)) =
    Some "missing.so: cannot open shared object file"%string.
Proof.
  split; [reflexivity|].
  rewrite (Plugin_new_load_failure loader "missing.so" ["add"] w0) by reflexivity.
  split; reflexivity.
Defined.

Lemma Plugin_new_bound_iff_all_resolved_run :
  bound (self (Plugin_new loader "libexample.so" ["add"; "sub"] w0)) = true /\
  error (self (Plugin_new loader "libexample.so" ["add"; "sub"] w0)) = Raw nullptr /\
  is_func_bound "sub" (self (Plugin_new loader "libexample.so" ["add"; "sub"] w0)) = true.
Proof.
  split; [reflexivity|].
  destruct (Plugin_new_bound_iff_all_resolved loader "libexample.so" ["add"; "sub"] w0)
    as [_ Himp].
  destruct (Himp eq_refl) as [He Hin].
  split; [exact He|]. apply Hin. right. left. reflexivity.
Defined.

Lemma execute_after_bind_function_run :
  is_lib_bound (self loaded) = true /\
  fst (dlsym loader (_lib (self loaded)) "add" (os loaded)) = 4096%N /\
  fst (execute loader int_int_int "add" (3, 4)%Z (snd (bind_function loader "add" loaded))) =
    fst (sig_call int_int_int 4096%N (3, 4)%Z (os (snd (bind_function loader "add" loaded)))).
Proof.
  split; [reflexivity|]. split; [reflexivity|].
  destruct (execute_after_bind_function loader int_int_int "add" (3, 4)%Z 4096%N loaded)
    as (Hr & _); [reflexivity | reflexivity | vm_compute; discriminate |].
  exact Hr.
Defined.

Lemma get_func_after_bind_function_run :
  is_lib_bound (self loaded) = true /\
  get_func loader "add" (snd (bind_function loader "add" loaded)) =
    (4096%N, snd (bind_function loader "add" loaded)) /\
  fst (get_func loader "sub" (snd (bind_function loader "add" loaded))) =
    fst (get_func loader "sub" loaded).
Proof.
  split; [reflexivity|].
  destruct (get_func_after_bind_function loader "add" 4096%N loaded)
    as (Hg & Hk); [reflexivity | reflexivity | vm_compute; discriminate |].
  split; [exact Hg|]. apply Hk. discriminate.
Defined.

Lemma held_library_is_permanent_run :
  is_lib_bound (self loaded) = true /\
  _lib (self (run loader [OpBindLibrary "other.so"; OpBindFunction "missing_fn"] loaded)) =
    _lib (self loaded) /\
  filepath (self (run loader [OpBindLibrary "other.so"; OpBindFunction "missing_fn"] loaded)) =
    filepath (self loaded) /\
  open_attempts (trace (run loader [OpBindLibrary "other.so"; OpBindFunction "missing_fn"] loaded)) =
    open_attempts (trace loaded).
Proof.
  split; [reflexivity|].
  apply (held_library_is_permanent loader
           [OpBindLibrary "other.so"; OpBindFunction "missing_fn"] loaded).
  reflexivity.
Defined.

Lemma bound_implies_lib_bound_run :
  bound (self (run loader [OpBindLibrary "libexample.so"; OpBindFunction "add"] unloaded)) = true /\
  is_lib_bound (self (run loader [OpBindLibrary "libexample.so"; OpBindFunction "add"] unloaded)) = true.
Proof.
  split; [reflexivity|].
  apply (bound_implies_lib_bound loader
           [OpBindLibrary "libexample.so"; OpBindFunction "add"] w0).
  reflexivity.
Defined.

Lemma failed_load_changes_only_path_and_error_run :
  is_lib_bound (self (run loader [OpGetFunc "add"; OpBindFunction "add"] unloaded)) = false /\
  fst (dlopen loader "missing.so"
         (os (run loader [OpGetFunc "add"; OpBindFunction "add"] unloaded))) = nullptr /\
  self (bind_library loader "missing.so"
          (run loader [OpGetFunc "add"; OpBindFunction "add"] unloaded)) =
    set_error
      (Raw (fst (dlerror loader
                   (snd (dlopen loader "missing.so"
                           (os (run loader [OpGetFunc "add"; OpBindFunction "add"] unloaded)))))))
      (set_filepath "missing.so"
         (self (run loader [OpGetFunc "add"; OpBindFunction "add"] unloaded))).
Proof.
  split; [reflexivity|]. split; [reflexivity|].
  apply (failed_load_changes_only_path_and_error loader "missing.so"
           [OpGetFunc "add"; OpBindFunction "add"] w0); reflexivity.
Defined.

Lemma is_func_bound_persists_run :
  is_func_bound "add" (self loaded_add) = true /\
  is_func_bound "add"
    (self (run loader
             [OpBindFunction "missing_fn"; OpBindLibrary "other.so"; OpGetFunc "sub"]
             loaded_add)) = true.
Proof.
  split; [reflexivity|].
  apply (is_func_bound_persists loader "add"
           [OpBindFunction "missing_fn"; OpBindLibrary "other.so"; OpGetFunc "sub"]
           loaded_add).
  reflexivity.
Defined.

End MoreRuns.
